(** * Job-submission options of the Go SDK (package [jobopts])

    A shallow embedding of [sdks/go/pkg/beam/options/jobopts/options.go]
    and of the few functions of the Go standard library it calls
    ([strings.Split], [fmt.Sprintf], [time.Now], [os.ExpandEnv]), followed
    by the properties of the four accessors [GetEndpoint], [GetJobName],
    [GetContainerImage] and [GetExperiments].

    Go strings are byte sequences: they are modelled by [string], whose
    characters are the 256 values of [ascii].  A [[]string] is a
    [list string]; the nil slice and the empty slice are both [[]]. *)

From Stdlib Require Import ZArith List String Ascii Bool Lia.
From Stdlib Require Import Numbers.DecimalString Numbers.DecimalPos
  Numbers.DecimalZ.
From ExtLib Require Import Structures.Monad Structures.MonadState.
From ExtLib Require Import Data.Monads.StateMonad.
Import ListNotations.
Import MonadNotation.

Local Open Scope list_scope.
Local Open Scope string_scope.

(** ** Package [strings] *)

Module strings.

(** [s[k:]] *)
Fixpoint sliceFrom (k : nat) (s : string) : string :=
  match k, s with
  | O, _ => s
  | S _, EmptyString => EmptyString
  | S k', String _ s' => sliceFrom k' s'
  end.

(** [s[:k]] *)
Fixpoint sliceTo (k : nat) (s : string) : string :=
  match k, s with
  | O, _ => EmptyString
  | S _, EmptyString => EmptyString
  | S k', String c s' => String c (sliceTo k' s')
  end.

(** [HasPrefix(s, prefix)] *)
Definition HasPrefix (s pre : string) : bool := String.prefix pre s.

(** [Index(s, substr)]: the position of the first instance of [substr]
    in [s]; Go's [-1] is [None]. *)
Fixpoint Index (s substr : string) : option nat :=
  if HasPrefix s substr then Some O
  else match s with
       | EmptyString => None
       | String _ s' => option_map S (Index s' substr)
       end.

(** [Contains(s, substr)] is [Index(s, substr) >= 0]. *)
Definition Contains (s substr : string) : bool :=
  match Index s substr with Some _ => true | None => false end.

(** [bytealg.CountString(s, c)] *)
Fixpoint CountString (s : string) (c : ascii) : nat :=
  match s with
  | EmptyString => O
  | String a s' =>
      if Ascii.eqb a c then S (CountString s' c) else CountString s' c
  end.

(** The loop of [Count] for a separator of two bytes or more.  Every
    round drops at least one byte of [s], so [length s] rounds are
    enough; [fuel] bounds them. *)
Fixpoint countLoop (fuel : nat) (s substr : string) : nat :=
  match fuel with
  | O => O
  | S fuel' =>
      match Index s substr with
      | None => O
      | Some i =>
          S (countLoop fuel' (sliceFrom (i + String.length substr) s) substr)
      end
  end.

(** [Count(s, substr)], the number of non-overlapping instances of
    [substr].  For the empty [substr] Go answers the number of UTF-8
    sequences plus one; the model counts bytes there, which is the same
    on ASCII text. *)
Definition Count (s substr : string) : nat :=
  match substr with
  | EmptyString => S (String.length s)
  | String c EmptyString => CountString s c
  | _ => countLoop (String.length s) s substr
  end.

(** The loop of [explode]: [k] one-byte elements, then the rest. *)
Fixpoint explodeLoop (k : nat) (s : string) : list string :=
  match k, s with
  | S k', String c s' => String c EmptyString :: explodeLoop k' s'
  | _, _ => [s]
  end.

(** [explode(s, n)] cuts [s] into at most [n] pieces, all of them when
    [n < 0].  Go cuts after each UTF-8 sequence; the model cuts after
    each byte, which is the same on ASCII text. *)
Definition explode (s : string) (n : Z) : list string :=
  let l := Z.of_nat (String.length s) in
  let n1 := if ((n <? 0) || (n >? l))%Z then l else n in
  if (n1 =? 0)%Z then [] else explodeLoop (Z.to_nat (n1 - 1)) s.

(** The loop of [genSplit]: [for i < n] with [k = n - i] rounds left.
    It leaves at the first round that finds no separator, and the rest
    of the string is the last element. *)
Fixpoint splitLoop (k : nat) (s sep : string) (sepSave : nat) : list string :=
  match k with
  | O => [s]
  | S k' =>
      match Index s sep with
      | None => [s]
      | Some m =>
          sliceTo (m + sepSave) s
            :: splitLoop k' (sliceFrom (m + String.length sep) s) sep sepSave
      end
  end.

(** [genSplit(s, sep, sepSave, n)] *)
Definition genSplit (s sep : string) (sepSave : nat) (n : Z) : list string :=
  if (n =? 0)%Z then []
  else match sep with
       | EmptyString => explode s n
       | _ =>
           let n1 := if (n <? 0)%Z
                     then (Z.of_nat (Count s sep) + 1)%Z else n in
           let n2 := if (n1 >? Z.of_nat (String.length s) + 1)%Z
                     then (Z.of_nat (String.length s) + 1)%Z else n1 in
           splitLoop (Z.to_nat (n2 - 1)) s sep sepSave
       end.

(** [Split(s, sep)] is [genSplit(s, sep, 0, -1)]. *)
Definition Split (s sep : string) : list string := genSplit s sep 0 (-1).

(** [Join(elems, sep)] *)
Fixpoint Join (elems : list string) (sep : string) : string :=
  match elems with
  | [] => EmptyString
  | [x] => x
  | x :: rest => x ++ sep ++ Join rest sep
  end.

End strings.


(** ** Package [fmt] *)

Module fmt.

(** The dynamic values the package passes to the formatting functions. *)
Inductive Value :=
| VString (s : string)
| VInt64 (z : Z).

(** Base-10 text of an integer, with a leading [-] when negative. *)
Definition formatInt (z : Z) : string := NilZero.string_of_int (Z.to_int z).

(** The verb [%v]: a string as it is, an integer in base 10. *)
Definition printValue (a : Value) : string :=
  match a with
  | VString s => s
  | VInt64 z => formatInt z
  end.

Definition typeName (a : Value) : string :=
  match a with
  | VString _ => "string"
  | VInt64 _ => "int64"
  end.

(** [%!c(type=value)], what a verb without a meaning prints. *)
Definition badVerb (c : ascii) (a : Value) : string :=
  "%!" ++ String c ("(" ++ typeName a ++ "=" ++ printValue a ++ ")").

Fixpoint extraArgs (a : list Value) : string :=
  match a with
  | [] => EmptyString
  | [x] => typeName x ++ "=" ++ printValue x
  | x :: a' => typeName x ++ "=" ++ printValue x ++ ", " ++ extraArgs a'
  end.

(** Operands left over when the format is used up. *)
Definition checkExtra (a : list Value) : string :=
  match a with
  | [] => EmptyString
  | _ => "%!(EXTRA " ++ extraArgs a ++ ")"
  end.

(** [doPrintf]: the format is copied up to each [%]; [%%] prints a
    percent sign and [%v] the next operand.  Flags, widths and the other
    verbs are not modelled (the package uses [%v] only): any other verb
    character is printed as a verb without a meaning. *)
Fixpoint doPrintf (format : string) (a : list Value) : string :=
  match format with
  | EmptyString => checkExtra a
  | String c rest =>
      if Ascii.eqb c "%" then
        match rest with
        | EmptyString => "%!(NOVERB)" ++ checkExtra a
        | String verb rest' =>
            if Ascii.eqb verb "%" then String "%" (doPrintf rest' a)
            else match a with
                 | [] => "%!" ++ String verb "(MISSING)" ++ doPrintf rest' []
                 | x :: a' =>
                     (if Ascii.eqb verb "v" then printValue x
                      else badVerb verb x) ++ doPrintf rest' a'
                 end
        end
      else String c (doPrintf rest a)
  end.

Definition Sprintf (format : string) (a : list Value) : string :=
  doPrintf format a.

(** The [error] interface, as far as this package goes: a value that
    carries its message. *)
Record error := mkError { Error : string }.

Definition Errorf (format : string) (a : list Value) : error :=
  mkError (Sprintf format a).

End fmt.

(** ** Package [time] *)

Module time.

(** A wall-clock reading: seconds since the Unix epoch and nanoseconds
    within the second. *)
Record Time := mkTime { unixSec : Z; nsec : Z }.

(** Arithmetic on [int64] wraps around. *)
Definition wrap64 (z : Z) : Z :=
  ((z + 2 ^ 63) mod 2 ^ 64 - 2 ^ 63)%Z.

(** [t.UnixNano()] is [t.unixSec()*1e9 + int64(t.nsec())] in [int64]. *)
Definition UnixNano (t : Time) : Z :=
  wrap64 (wrap64 (unixSec t * 1000000000) + nsec t).

End time.

(** ** Package [os] *)

Module os.

Definition isShellSpecialVar (c : ascii) : bool :=
  existsb (Ascii.eqb c)
    ["*"; "#"; "$"; "@"; "!"; "?"; "-";
     "0"; "1"; "2"; "3"; "4"; "5"; "6"; "7"; "8"; "9"]%char.

Definition between (lo c hi : ascii) : bool :=
  (nat_of_ascii lo <=? nat_of_ascii c)%nat
  && (nat_of_ascii c <=? nat_of_ascii hi)%nat.

Definition isAlphaNum (c : ascii) : bool :=
  Ascii.eqb c "_" || between "0" c "9" || between "a" c "z"
  || between "A" c "Z".

(** The number of leading bytes of [s] that are letters, digits or [_]. *)
Fixpoint scanAlphaNum (s : string) : nat :=
  match s with
  | EmptyString => O
  | String c s' => if isAlphaNum c then S (scanAlphaNum s') else O
  end.

(** [getShellName(s)], for a non-empty [s]: the name that follows a [$]
    and the number of bytes it takes. *)
Definition getShellName (s : string) : string * nat :=
  match s with
  | EmptyString => (EmptyString, O)
  | String c0 rest =>
      if Ascii.eqb c0 "{" then
        let special :=
          match rest with
          | String c1 (String c2 _) =>
              isShellSpecialVar c1 && Ascii.eqb c2 "}"
          | _ => false
          end in
        if special then (strings.sliceTo 1 rest, 3)
        else match strings.Index rest "}" with
             | Some O => (EmptyString, 2)
             | Some m => (strings.sliceTo m rest, m + 2)
             | None => (EmptyString, 1)
             end
      else if isShellSpecialVar c0 then (String c0 EmptyString, 1)
      else let i := scanAlphaNum s in (strings.sliceTo i s, i)
  end.

(** [Expand(s, mapping)]: the loop over the bytes of [s]; [skip] counts
    the bytes of a name that the loop index jumps over. *)
Fixpoint expandFrom (skip : nat) (s : string) (mapping : string -> string)
  : string :=
  match s with
  | EmptyString => EmptyString
  | String c rest =>
      match skip with
      | S k => expandFrom k rest mapping
      | O =>
          match rest with
          | String _ _ =>
              if Ascii.eqb c "$" then
                let (name, w) := getShellName rest in
                (match name, w with
                 | EmptyString, S _ => EmptyString
                 | EmptyString, O => String c EmptyString
                 | _, _ => mapping name
                 end) ++ expandFrom w rest mapping
              else String c (expandFrom O rest mapping)
          | EmptyString => String c EmptyString
          end
      end
  end.

Definition Expand (s : string) (mapping : string -> string) : string :=
  expandFrom O s mapping.

(** The environment of the process: [KEY=value] entries, the first
    entry of a key being the one that counts. *)
Definition Environ := list (string * string).

Fixpoint LookupEnv (env : Environ) (key : string) : option string :=
  match env with
  | [] => None
  | (k, v) :: env' => if String.eqb k key then Some v else LookupEnv env' key
  end.

(** [Getenv(key)] is empty when the variable is not present. *)
Definition Getenv (env : Environ) (key : string) : string :=
  match LookupEnv env key with
  | Some v => v
  | None => EmptyString
  end.

Definition ExpandEnv (env : Environ) (s : string) : string :=
  Expand s (Getenv env).

End os.

(** ** The process: flags, environment, clock and visible effects *)

(** [context.Context], from the caller; the package only hands it on to
    the logger. *)
Inductive Context :=
| Background
| WithValue (parent : Context) (key val : string).

(** The string flags the package registers.  Each is a [*string] into the
    flag set: [Endpoint] and the others are the pointers, [load p] is
    [*p] and [store p v] is [*p = v]. *)
Inductive StringFlag :=
| Endpoint
| JobName
| ContainerImage
| Experiments
| InternalJavaRunner.

(** The variables behind the pointers, under the names they are
    registered with (all empty, and [async] false, until the command line
    or the program sets them). *)
Record FlagSet := mkFlagSet {
  endpoint : string;
  job_name : string;
  container_image : string;
  experiments : string;
  async : bool;
  internal_java_runner : string
}.

Definition flagDefaults : FlagSet := mkFlagSet "" "" "" "" false "".

Definition load (p : StringFlag) (fs : FlagSet) : string :=
  match p with
  | Endpoint => endpoint fs
  | JobName => job_name fs
  | ContainerImage => container_image fs
  | Experiments => experiments fs
  | InternalJavaRunner => internal_java_runner fs
  end.

Definition store (p : StringFlag) (v : string) (fs : FlagSet) : FlagSet :=
  match p with
  | Endpoint =>
      mkFlagSet v (job_name fs) (container_image fs) (experiments fs)
        (async fs) (internal_java_runner fs)
  | JobName =>
      mkFlagSet (endpoint fs) v (container_image fs) (experiments fs)
        (async fs) (internal_java_runner fs)
  | ContainerImage =>
      mkFlagSet (endpoint fs) (job_name fs) v (experiments fs)
        (async fs) (internal_java_runner fs)
  | Experiments =>
      mkFlagSet (endpoint fs) (job_name fs) (container_image fs) v
        (async fs) (internal_java_runner fs)
  | InternalJavaRunner =>
      mkFlagSet (endpoint fs) (job_name fs) (container_image fs)
        (experiments fs) (async fs) v
  end.

Inductive Severity := SevDebug | SevInfo | SevWarn | SevError | SevFatal.

(** What a call leaves behind for the rest of the process to see. *)
Inductive Event :=
| Assigned (p : StringFlag) (v : string)
| Logged (ctx : Context) (sev : Severity) (msg : string).

(** The state the package runs in.  [clock n] is what the [n]-th reading
    of the wall clock gives and [ticks] the number of readings taken;
    [trace] lists the events so far, the latest first. *)
Record World := mkWorld {
  flags : FlagSet;
  environ : os.Environ;
  clock : nat -> time.Time;
  ticks : nat;
  trace : list Event
}.

Definition Go := state World.

Local Open Scope monad_scope.

(** [*p] *)
Definition deref (p : StringFlag) : Go string :=
  w <- get ;; ret (load p (flags w)).

(** [*p = v] *)
Definition assign (p : StringFlag) (v : string) : Go unit :=
  w <- get ;;
  put (mkWorld (store p v (flags w)) (environ w) (clock w) (ticks w)
         (Assigned p v :: trace w)).

(** [time.Now()] *)
Definition Now : Go time.Time :=
  w <- get ;;
  put (mkWorld (flags w) (environ w) (clock w) (S (ticks w)) (trace w)) ;;
  ret (clock w (ticks w)).

(** [os.ExpandEnv(s)] *)
Definition ExpandEnv (s : string) : Go string :=
  w <- get ;; ret (os.ExpandEnv (environ w) s).

(** ** Package [log] *)

Module log.

(** Modelled from the spec: [log.Infof] of the repository's package
    [sdks/go/pkg/beam/log], which is not among the sources.  The spec has
    it as one informational-level log emission, parameterized by the
    ambient context and the formatted message. *)
Definition Infof (ctx : Context) (format : string) (v : list fmt.Value)
  : Go unit :=
  w <- get ;;
  put (mkWorld (flags w) (environ w) (clock w) (ticks w)
         (Logged ctx SevInfo (fmt.Sprintf format v) :: trace w)).

End log.

(** ** Package [jobopts] *)

Module jobopts.

(** [GetEndpoint] returns the endpoint, if non empty, and an error
    otherwise. *)
Definition GetEndpoint : Go (string * option fmt.error) :=
  e <- deref Endpoint ;;
  if String.eqb e "" then
    ret ("", Some (fmt.Errorf
           "no job service endpoint specified. Use --endpoint=<endpoint>" []))
  else
    e' <- deref Endpoint ;;
    ret (e', None).

(** [GetJobName] returns the specified job name or, if not present, an
    autogenerated name. *)
Definition GetJobName : Go string :=
  j <- deref JobName ;;
  (if String.eqb j "" then
     t <- Now ;;
     assign JobName (fmt.Sprintf "go-job-%v" [fmt.VInt64 (time.UnixNano t)])
   else ret tt) ;;
  deref JobName.

(** [GetContainerImage] returns the specified SDK harness container
    image or, if not present, the default development container for the
    current user. *)
Definition GetContainerImage (ctx : Context) : Go string :=
  c <- deref ContainerImage ;;
  (if String.eqb c "" then
     img <- ExpandEnv "$USER-docker-apache.bintray.io/beam/go:latest" ;;
     assign ContainerImage img ;;
     img' <- deref ContainerImage ;;
     log.Infof ctx "No container image specified. Using dev image: '%v'"
       [fmt.VString img']
   else ret tt) ;;
  deref ContainerImage.

(** [GetExperiments] returns the experiments. *)
Definition GetExperiments : Go (list string) :=
  e <- deref Experiments ;;
  if String.eqb e "" then ret []
  else
    e' <- deref Experiments ;;
    ret (strings.Split e' ",").

End jobopts.

(** An assignment to a flag from outside the package (the command line, or
    user code, which the package lets inspect and modify the options). *)
Definition setFlag (p : StringFlag) (v : string) (w : World) : World :=
  snd (runState (assign p v) w).

(** The log records of a trace, the latest first. *)
Definition diagnostics (tr : list Event) : list (Context * Severity * string) :=
  flat_map (fun e => match e with
                     | Logged ctx sev msg => [(ctx, sev, msg)]
                     | Assigned _ _ => []
                     end) tr.

(** The registry, path and tag of the development image, what follows the
    user's name in the default of [GetContainerImage]. *)
Definition devImage : string := "-docker-apache.bintray.io/beam/go:latest".

(** ** What the spec says of the experiments, for comparison *)

(** Following the spec's words: the raw string is cut strictly at each
    separator character; nothing is trimmed and no empty token is removed,
    so every separator closes one token and opens the next. *)
Fixpoint literalSplit (c : ascii) (s : string) : list string :=
  match s with
  | EmptyString => [EmptyString]
  | String a s' =>
      if Ascii.eqb a c then EmptyString :: literalSplit c s'
      else match literalSplit c s' with
           | tok :: toks => String a tok :: toks
           | [] => [String a EmptyString]
           end
  end.

(** Following the spec's words: an empty raw string is no experiments at
    all, any other one is split literally on the comma. *)
Definition ResolveExperiments (raw : string) : list string :=
  match raw with
  | EmptyString => []
  | _ => literalSplit "," raw
  end.

(** ** A client's use of the package *)

(** One call of an accessor. *)
Inductive Call :=
| CallGetEndpoint
| CallGetJobName
| CallGetContainerImage (ctx : Context)
| CallGetExperiments.

(** The process after a call. *)
Definition after (c : Call) (w : World) : World :=
  match c with
  | CallGetEndpoint => snd (runState jobopts.GetEndpoint w)
  | CallGetJobName => snd (runState jobopts.GetJobName w)
  | CallGetContainerImage ctx =>
      snd (runState (jobopts.GetContainerImage ctx) w)
  | CallGetExperiments => snd (runState jobopts.GetExperiments w)
  end.

(** The process after a run of calls, in order, with nothing else writing
    to the flags in between. *)
Fixpoint afterAll (cs : list Call) (w : World) : World :=
  match cs with
  | [] => w
  | c :: cs' => afterAll cs' (after c w)
  end.

Definition isGetJobName (c : Call) : bool :=
  match c with CallGetJobName => true | _ => false end.

Definition isGetContainerImage (c : Call) : bool :=
  match c with CallGetContainerImage _ => true | _ => false end.

(** The events the accessors are seen to leave: an assignment of a string
    that is not empty to [JobName] or [ContainerImage], or a log record
    at level info. *)
Definition ownEvent (e : Event) : bool :=
  match e with
  | Assigned JobName v | Assigned ContainerImage v => negb (String.eqb v "")
  | Assigned _ _ => false
  | Logged _ SevInfo _ => true
  | Logged _ _ _ => false
  end.

(** Whether a string flag is still empty. *)
Definition unset (p : StringFlag) (w : World) : bool :=
  String.eqb (load p (flags w)) "".

(** What a call does to the process: nothing, unless it is the first
    resolution of the job name or of the container image. *)
Inductive Step (w : World) : Call -> World -> Prop :=
| StepNone c :
    (isGetJobName c = true -> load JobName (flags w) <> "") ->
    (isGetContainerImage c = true -> load ContainerImage (flags w) <> "") ->
    Step w c w
| StepJobName name :
    load JobName (flags w) = "" -> name <> "" ->
    Step w CallGetJobName
      (mkWorld (store JobName name (flags w)) (environ w) (clock w)
         (S (ticks w)) (Assigned JobName name :: trace w))
| StepContainerImage ctx img msg :
    load ContainerImage (flags w) = "" -> img <> "" ->
    Step w (CallGetContainerImage ctx)
      (mkWorld (store ContainerImage img (flags w)) (environ w) (clock w)
         (ticks w)
         (Logged ctx SevInfo msg :: Assigned ContainerImage img :: trace w)).

(** ** Instants and names *)

(** The nanoseconds from the Unix epoch to a reading of the clock, as an
    integer without bound. *)
Definition instant (t : time.Time) : Z :=
  (time.unixSec t * 1000000000 + time.nsec t)%Z.

(** The readings [UnixNano] can give in [int64] (years 1678 to 2262). *)
Definition representable (t : time.Time) : Prop :=
  (- 2 ^ 63 <= instant t < 2 ^ 63)%Z.

Fixpoint allBytes (p : ascii -> bool) (s : string) : bool :=
  match s with
  | EmptyString => true
  | String c s' => p c && allBytes p s'
  end.

(** A lower-case letter, a digit or a hyphen. *)
Definition jobNameByte (c : ascii) : bool :=
  os.between "a" c "z" || os.between "0" c "9" || Ascii.eqb c "-".

(** ** Sample processes *)

(** A process started without any of the flags, by user [alice]. *)
Definition fresh : World :=
  mkWorld flagDefaults [("HOME", "/home/alice"); ("USER", "alice")]
    (fun n => time.mkTime 1500000000 (Z.of_nat n)) 0 [].

(** The same process without [USER] in its environment. *)
Definition anonymous : World :=
  mkWorld flagDefaults [("HOME", "/")] (clock fresh) 0 [].

(** The first process again, a reading of the clock later. *)
Definition later : World :=
  mkWorld flagDefaults (environ fresh) (clock fresh) 1 [].

(** ** Running the primitives *)

Section Primitives.

Variable w : World.

Lemma load_store p v fs : load p (store p v fs) = v.
Proof. destruct p; reflexivity. Qed.

Lemma load_store_other p q v fs : p <> q -> load q (store p v fs) = load q fs.
Proof. destruct p, q; intros H; try reflexivity; contradiction. Qed.

Lemma async_store p v fs : async (store p v fs) = async fs.
Proof. destruct p; reflexivity. Qed.

Lemma load_setFlag p v : load p (flags (setFlag p v w)) = v.
Proof. unfold setFlag; simpl. apply load_store. Qed.

End Primitives.

Lemma append_empty_r (s : string) : s ++ "" = s.
Proof. induction s as [|c s IH]; simpl; [|rewrite IH]; reflexivity. Qed.

Lemma append_nonempty_r (s t : string) : t <> "" -> s ++ t <> "".
Proof.
  intros Ht; destruct s; simpl; [exact Ht | discriminate].
Qed.

Lemma HasPrefix_append (pre s : string) :
  strings.HasPrefix (pre ++ s) pre = true.
Proof.
  unfold strings.HasPrefix. induction pre as [|c pre IH]; simpl.
  - destruct s; reflexivity.
  - destruct (ascii_dec c c) as [_ | N]; [exact IH | now elim N].
Qed.

Lemma eqb_empty_false (s : string) : s <> "" -> String.eqb s "" = false.
Proof. apply String.eqb_neq. Qed.

(** ** [GetEndpoint] *)

(** C1.  Whatever the state of the raw [Endpoint]: when it is empty,
    [GetEndpoint] returns the empty string with an error, the only one the
    package makes, whose message names the option and shows the flag that
    supplies it, [--endpoint=<endpoint>]; when it is not empty,
    [GetEndpoint] returns that very string and no error.  Neither case
    touches the process. *)
Theorem GetEndpoint_required (w : World) :
  (load Endpoint (flags w) = "" ->
   exists err,
     runState jobopts.GetEndpoint w = ("", Some err, w)
     /\ strings.Contains (fmt.Error err) "endpoint" = true
     /\ strings.Contains (fmt.Error err) "--endpoint=<endpoint>" = true)
  /\ (load Endpoint (flags w) <> "" ->
      runState jobopts.GetEndpoint w = (load Endpoint (flags w), None, w)).
Proof.
  split; intros H.
  - eexists. unfold jobopts.GetEndpoint; cbn.
    change (endpoint (flags w)) with (load Endpoint (flags w)).
    rewrite H; cbn. repeat split.
  - unfold jobopts.GetEndpoint; cbn.
    change (endpoint (flags w)) with (load Endpoint (flags w)).
    rewrite (eqb_empty_false _ H). reflexivity.
Qed.

Lemma GetEndpoint_required_witness :
  (exists err,
     runState jobopts.GetEndpoint fresh = ("", Some err, fresh)
     /\ strings.Contains (fmt.Error err) "endpoint" = true
     /\ strings.Contains (fmt.Error err) "--endpoint=<endpoint>" = true)
  /\ runState jobopts.GetEndpoint (setFlag Endpoint "localhost:8099" fresh)
     = ("localhost:8099", None, setFlag Endpoint "localhost:8099" fresh).
Proof.
  split.
  - apply (proj1 (GetEndpoint_required fresh)). reflexivity.
  - apply (proj2 (GetEndpoint_required (setFlag Endpoint "localhost:8099" fresh))).
    simpl. discriminate.
Defined.

(** ** [GetJobName] *)

Lemma Sprintf_job_name (z : Z) :
  fmt.Sprintf "go-job-%v" [fmt.VInt64 z] = "go-job-" ++ fmt.formatInt z.
Proof.
  unfold fmt.Sprintf; cbn. now rewrite append_empty_r.
Qed.

(** The first resolution: one reading of the clock, one assignment. *)
Lemma GetJobName_unset (w : World) :
  load JobName (flags w) = "" ->
  runState jobopts.GetJobName w =
    (let name := "go-job-"
                 ++ fmt.formatInt (time.UnixNano (clock w (ticks w))) in
     (name,
      mkWorld (store JobName name (flags w)) (environ w) (clock w)
        (S (ticks w)) (Assigned JobName name :: trace w))).
Proof.
  intros H. unfold jobopts.GetJobName.
  cbn -[fmt.Sprintf time.UnixNano String.append].
  change (job_name (flags w)) with (load JobName (flags w)).
  rewrite H. cbn -[fmt.Sprintf time.UnixNano String.append].
  now rewrite Sprintf_job_name.
Qed.

(** A job name that is set is returned, and nothing else happens. *)
Lemma GetJobName_set (w : World) :
  load JobName (flags w) <> "" ->
  runState jobopts.GetJobName w = (load JobName (flags w), w).
Proof.
  intros H. unfold jobopts.GetJobName. cbn.
  change (job_name (flags w)) with (load JobName (flags w)).
  rewrite (eqb_empty_false _ H). reflexivity.
Qed.

(** C2.  From every state whose raw [JobName] is empty, [GetJobName]
    returns the literal [go-job-] followed by the decimal text of the
    clock reading in nanoseconds; that string is not empty, begins with
    [go-job-], and is what the raw [JobName] holds afterwards. *)
Theorem GetJobName_synthesizes (w : World) :
  load JobName (flags w) = "" ->
  let r := fst (runState jobopts.GetJobName w) in
  let w' := snd (runState jobopts.GetJobName w) in
  r = "go-job-" ++ fmt.formatInt (time.UnixNano (clock w (ticks w)))
  /\ r <> ""
  /\ strings.HasPrefix r "go-job-" = true
  /\ load JobName (flags w') = r.
Proof.
  intros H. rewrite (GetJobName_unset w H). cbn zeta.
  cbn [fst snd flags]. rewrite load_store.
  split; [reflexivity |]. split; [discriminate |].
  split; [apply HasPrefix_append | reflexivity].
Qed.

Lemma GetJobName_synthesizes_witness :
  fst (runState jobopts.GetJobName fresh) = "go-job-1500000000000000000"
  /\ load JobName (flags (snd (runState jobopts.GetJobName fresh)))
     = "go-job-1500000000000000000".
Proof.
  destruct (GetJobName_synthesizes fresh eq_refl) as (Hr & _ & _ & Hw).
  split; [exact Hr | exact Hw].
Defined.

(** C3.  From every state of the raw [JobName], two calls of [GetJobName]
    in a row return the same string, and the second one leaves the process
    as the first one left it: no reading of the clock, no assignment. *)
Theorem GetJobName_idempotent (w : World) :
  let w1 := snd (runState jobopts.GetJobName w) in
  fst (runState jobopts.GetJobName w1) = fst (runState jobopts.GetJobName w)
  /\ snd (runState jobopts.GetJobName w1) = w1.
Proof.
  assert (Hres : load JobName
                   (flags (snd (runState jobopts.GetJobName w)))
                 = fst (runState jobopts.GetJobName w)
                 /\ fst (runState jobopts.GetJobName w) <> "").
  { destruct (String.eqb_spec (load JobName (flags w)) "") as [E | N].
    - rewrite (GetJobName_unset w E). cbn zeta. cbn [fst snd flags].
      rewrite load_store. split; [reflexivity | discriminate].
    - rewrite (GetJobName_set w N). split; [reflexivity | exact N]. }
  destruct Hres as [Hload Hne]. cbn zeta.
  rewrite <- Hload in Hne.
  rewrite (GetJobName_set _ Hne). cbn [fst snd].
  split; [exact Hload | reflexivity].
Qed.

(** C4.  A raw [JobName] that is not empty is returned as it is and the
    process is left untouched: nothing is assigned, the clock is not
    read. *)
Theorem GetJobName_explicit (w : World) :
  load JobName (flags w) <> "" ->
  runState jobopts.GetJobName w = (load JobName (flags w), w).
Proof. exact (GetJobName_set w). Qed.

Lemma GetJobName_explicit_witness :
  runState jobopts.GetJobName (setFlag JobName "my-job" fresh)
  = ("my-job", setFlag JobName "my-job" fresh).
Proof.
  apply (GetJobName_explicit (setFlag JobName "my-job" fresh)).
  simpl. discriminate.
Defined.

(** ** [GetContainerImage] *)

(** The only variable of the template is [USER], cut off by the hyphen
    that follows it. *)
Lemma ExpandEnv_template (env : os.Environ) :
  os.ExpandEnv env "$USER-docker-apache.bintray.io/beam/go:latest"
  = os.Getenv env "USER" ++ devImage.
Proof. reflexivity. Qed.

Lemma Sprintf_dev_image (img : string) :
  fmt.Sprintf "No container image specified. Using dev image: '%v'"
    [fmt.VString img]
  = "No container image specified. Using dev image: '" ++ img ++ "'".
Proof. reflexivity. Qed.

(** The first resolution: one assignment, then one log record. *)
Lemma GetContainerImage_unset (ctx : Context) (w : World) :
  load ContainerImage (flags w) = "" ->
  runState (jobopts.GetContainerImage ctx) w =
    (let img := os.Getenv (environ w) "USER" ++ devImage in
     (img,
      mkWorld (store ContainerImage img (flags w)) (environ w) (clock w)
        (ticks w)
        (Logged ctx SevInfo
           ("No container image specified. Using dev image: '" ++ img ++ "'")
           :: Assigned ContainerImage img :: trace w))).
Proof.
  intros H. unfold jobopts.GetContainerImage.
  cbn -[fmt.Sprintf os.ExpandEnv String.append].
  change (container_image (flags w)) with (load ContainerImage (flags w)).
  rewrite H. cbn -[fmt.Sprintf os.ExpandEnv String.append].
  now rewrite ExpandEnv_template, Sprintf_dev_image.
Qed.

(** An image that is set is returned, and nothing else happens. *)
Lemma GetContainerImage_set (ctx : Context) (w : World) :
  load ContainerImage (flags w) <> "" ->
  runState (jobopts.GetContainerImage ctx) w
  = (load ContainerImage (flags w), w).
Proof.
  intros H. unfold jobopts.GetContainerImage. cbn.
  change (container_image (flags w)) with (load ContainerImage (flags w)).
  rewrite (eqb_empty_false _ H). reflexivity.
Qed.

Lemma devImage_nonempty (user : string) : user ++ devImage <> "".
Proof. apply append_nonempty_r. discriminate. Qed.

(** What the first call leaves: the raw field holds the result, which is
    not empty. *)
Lemma GetContainerImage_resolved (ctx : Context) (w : World) :
  load ContainerImage
    (flags (snd (runState (jobopts.GetContainerImage ctx) w)))
  = fst (runState (jobopts.GetContainerImage ctx) w)
  /\ fst (runState (jobopts.GetContainerImage ctx) w) <> "".
Proof.
  destruct (String.eqb_spec (load ContainerImage (flags w)) "") as [E | N].
  - rewrite (GetContainerImage_unset ctx w E). cbn zeta. cbn [fst snd flags].
    rewrite load_store. split; [reflexivity | apply devImage_nonempty].
  - rewrite (GetContainerImage_set ctx w N). split; [reflexivity | exact N].
Qed.

(** C5.  From every state whose raw [ContainerImage] is empty,
    [GetContainerImage] returns the value of [USER] in the environment
    followed by [-docker-apache.bintray.io/beam/go:latest], and the raw
    field holds that string afterwards.  The result is a string in every
    case (the accessor has no error to return), and never the empty
    one. *)
Theorem GetContainerImage_default (ctx : Context) (w : World) :
  load ContainerImage (flags w) = "" ->
  let r := fst (runState (jobopts.GetContainerImage ctx) w) in
  let w' := snd (runState (jobopts.GetContainerImage ctx) w) in
  r = os.Getenv (environ w) "USER"
      ++ "-docker-apache.bintray.io/beam/go:latest"
  /\ load ContainerImage (flags w') = r
  /\ r <> "".
Proof.
  intros H. cbn zeta.
  destruct (GetContainerImage_resolved ctx w) as [Hload Hne].
  repeat split; [| exact Hload | exact Hne].
  now rewrite (GetContainerImage_unset ctx w H).
Qed.

Lemma GetContainerImage_default_witness :
  fst (runState (jobopts.GetContainerImage Background) fresh)
  = "alice-docker-apache.bintray.io/beam/go:latest"
  /\ load ContainerImage
       (flags (snd (runState (jobopts.GetContainerImage Background) fresh)))
     = "alice-docker-apache.bintray.io/beam/go:latest".
Proof.
  destruct (GetContainerImage_default Background fresh eq_refl)
    as (Hr & Hw & _).
  split; [exact Hr | rewrite Hw; exact Hr].
Defined.

(** C6.  On an empty raw value [GetContainerImage] adds exactly one record
    to the log, at level info, with the image it chose.  A second call
    right after returns the same string and leaves the process (so the
    log too) as it was; so does any call on a raw value that is not
    empty. *)
Theorem GetContainerImage_diagnostic (ctx : Context) (w : World) :
  let r := fst (runState (jobopts.GetContainerImage ctx) w) in
  let w1 := snd (runState (jobopts.GetContainerImage ctx) w) in
  (load ContainerImage (flags w) = "" ->
   diagnostics (trace w1)
   = (ctx, SevInfo,
      "No container image specified. Using dev image: '" ++ r ++ "'")
       :: diagnostics (trace w))
  /\ (forall ctx', runState (jobopts.GetContainerImage ctx') w1 = (r, w1))
  /\ (load ContainerImage (flags w) <> "" -> w1 = w).
Proof.
  cbn zeta. destruct (GetContainerImage_resolved ctx w) as [Hload Hne].
  split; [| split].
  - intros H. rewrite (GetContainerImage_unset ctx w H). reflexivity.
  - intros ctx'. rewrite <- Hload in Hne.
    rewrite (GetContainerImage_set ctx' _ Hne). now rewrite Hload.
  - intros H. now rewrite (GetContainerImage_set ctx w H).
Qed.

Lemma GetContainerImage_diagnostic_witness :
  diagnostics
    (trace (snd (runState (jobopts.GetContainerImage Background) fresh)))
  = [(Background, SevInfo,
      "No container image specified. Using dev image: 'alice-docker-apache.bintray.io/beam/go:latest'")]
  /\ snd (runState (jobopts.GetContainerImage Background)
            (setFlag ContainerImage "example.com/beam/go:dev" fresh))
     = setFlag ContainerImage "example.com/beam/go:dev" fresh.
Proof.
  split.
  - apply (proj1 (GetContainerImage_diagnostic Background fresh)).
    reflexivity.
  - apply (proj2 (proj2 (GetContainerImage_diagnostic Background
             (setFlag ContainerImage "example.com/beam/go:dev" fresh)))).
    simpl. discriminate.
Defined.

(** C7.  With [USER] absent from the environment, or present and empty,
    and an empty raw [ContainerImage], [GetContainerImage] still returns:
    the user's part of the image is empty, and the result is the rest,
    [-docker-apache.bintray.io/beam/go:latest], which is not empty. *)
Theorem GetContainerImage_no_user (ctx : Context) (w : World) :
  os.LookupEnv (environ w) "USER" = None
  \/ os.LookupEnv (environ w) "USER" = Some "" ->
  load ContainerImage (flags w) = "" ->
  fst (runState (jobopts.GetContainerImage ctx) w)
  = "-docker-apache.bintray.io/beam/go:latest"
  /\ fst (runState (jobopts.GetContainerImage ctx) w) <> "".
Proof.
  intros Huser H. rewrite (GetContainerImage_unset ctx w H).
  cbn zeta. cbn [fst]. unfold os.Getenv.
  destruct Huser as [-> | ->]; split; (reflexivity || discriminate).
Qed.

Lemma GetContainerImage_no_user_witness :
  fst (runState (jobopts.GetContainerImage Background) anonymous)
  = "-docker-apache.bintray.io/beam/go:latest"
  /\ fst (runState (jobopts.GetContainerImage Background) anonymous) <> "".
Proof.
  apply (GetContainerImage_no_user Background anonymous).
  - left. reflexivity.
  - reflexivity.
Defined.

(** ** The bounded loop of [strings.Count] *)

Lemma length_sliceFrom (k : nat) (s : string) :
  String.length (strings.sliceFrom k s) = (String.length s - k)%nat.
Proof.
  revert s; induction k as [|k IH]; intros [|a s]; simpl; auto with arith.
Qed.

Lemma Index_empty (sep : string) :
  sep <> "" -> strings.Index "" sep = None.
Proof. destruct sep; [intros H; now elim H | reflexivity]. Qed.

(** [length s] rounds are enough: more fuel changes nothing. *)
Lemma countLoop_fuel (sep : string) (f1 f2 : nat) (s : string) :
  sep <> "" ->
  (String.length s <= f1)%nat -> (String.length s <= f2)%nat ->
  strings.countLoop f1 s sep = strings.countLoop f2 s sep.
Proof.
  intros Hsep. revert f2 s.
  induction f1 as [|f1 IH]; intros [|f2] s H1 H2; cbn [strings.countLoop];
    try reflexivity.
  - destruct s; [| simpl in H1; lia]. now rewrite Index_empty.
  - destruct s; [| simpl in H2; lia]. now rewrite Index_empty.
  - destruct (strings.Index s sep) as [i|]; [| reflexivity].
    f_equal. assert (0 < String.length sep)%nat
      by (destruct sep; [now elim Hsep | simpl; lia]).
    apply IH; rewrite length_sliceFrom; lia.
Qed.

(** ** [strings.Split] on a separator of one byte *)

Section OneByteSeparator.

Variable c : ascii.

Let sep : string := String c EmptyString.

Lemma prefix_empty (s : string) : String.prefix "" s = true.
Proof. destruct s; reflexivity. Qed.

Lemma Index_byte (a : ascii) (s : string) :
  strings.Index (String a s) sep
  = if Ascii.eqb a c then Some O else option_map S (strings.Index s sep).
Proof.
  unfold sep. cbn [strings.Index]. unfold strings.HasPrefix at 1.
  cbn [String.prefix].
  destruct (Ascii.eqb_spec a c) as [-> | N].
  - destruct (ascii_dec c c) as [_ | N]; [| now elim N].
    now rewrite prefix_empty.
  - destruct (ascii_dec c a) as [E | _]; [now elim N | reflexivity].
Qed.

Lemma Contains_byte (a : ascii) (s : string) :
  strings.Contains (String a s) sep
  = Ascii.eqb a c || strings.Contains s sep.
Proof.
  unfold strings.Contains. rewrite Index_byte.
  destruct (Ascii.eqb a c); [reflexivity |].
  destruct (strings.Index s sep); reflexivity.
Qed.

Lemma literalSplit_nonempty (s : string) : literalSplit c s <> [].
Proof.
  destruct s as [|a s]; simpl; [discriminate |].
  destruct (Ascii.eqb a c); [discriminate |].
  destruct (literalSplit c s); discriminate.
Qed.

(** A byte that is not the separator joins the first element. *)
Lemma splitLoop_other (k : nat) (a : ascii) (s : string) :
  Ascii.eqb a c = false ->
  strings.splitLoop k (String a s) sep 0
  = match strings.splitLoop k s sep 0 with
    | tok :: toks => String a tok :: toks
    | [] => [String a EmptyString]
    end.
Proof.
  intros N. destruct k as [|k]; [reflexivity |].
  cbn [strings.splitLoop]. rewrite Index_byte, N.
  destruct (strings.Index s sep) as [m|]; reflexivity.
Qed.

(** With as many rounds as there are separators, the loop cuts at every
    one of them. *)
Lemma splitLoop_byte (s : string) :
  strings.splitLoop (strings.CountString s c) s sep 0 = literalSplit c s.
Proof.
  induction s as [|a s IH]; [reflexivity |].
  cbn [strings.CountString literalSplit].
  destruct (Ascii.eqb a c) eqn:E.
  - cbn [strings.splitLoop]. rewrite Index_byte, E.
    cbn. fold sep. now rewrite IH.
  - now rewrite (splitLoop_other _ _ _ E), IH.
Qed.

Lemma CountString_le (s : string) :
  (strings.CountString s c <= String.length s)%nat.
Proof.
  induction s as [|a s IH]; simpl; [lia |].
  destruct (Ascii.eqb a c); lia.
Qed.

Lemma Split_byte (s : string) : strings.Split s sep = literalSplit c s.
Proof.
  unfold strings.Split, strings.genSplit, sep.
  cbn [Z.eqb Z.ltb Z.compare strings.Count].
  pose proof (CountString_le s) as Hle.
  destruct (Z.gtb_spec (Z.of_nat (strings.CountString s c) + 1)
              (Z.of_nat (String.length s) + 1)) as [Hgt | _]; [lia |].
  replace (Z.to_nat (Z.of_nat (strings.CountString s c) + 1 - 1))
    with (strings.CountString s c) by lia.
  apply splitLoop_byte.
Qed.

Lemma Join_cons (x : string) (rest : list string) (sp : string) :
  rest <> [] ->
  strings.Join (x :: rest) sp = x ++ sp ++ strings.Join rest sp.
Proof. destruct rest; [intros H; now elim H | reflexivity]. Qed.

Lemma Join_literalSplit (s : string) :
  strings.Join (literalSplit c s) sep = s.
Proof.
  induction s as [|a s IH]; [reflexivity |].
  pose proof (literalSplit_nonempty s) as Hne.
  cbn [literalSplit].
  destruct (Ascii.eqb_spec a c) as [-> | N].
  - rewrite (Join_cons _ _ _ Hne), IH. reflexivity.
  - destruct (literalSplit c s) as [|tok toks]; [now elim Hne |].
    rewrite <- IH. destruct toks as [|tok' toks]; reflexivity.
Qed.

Lemma length_literalSplit (s : string) :
  List.length (literalSplit c s) = S (strings.CountString s c).
Proof.
  induction s as [|a s IH]; [reflexivity |].
  pose proof (literalSplit_nonempty s) as Hne.
  cbn [literalSplit strings.CountString].
  destruct (Ascii.eqb a c); simpl; [now rewrite IH |].
  destruct (literalSplit c s) as [|tok toks]; [now elim Hne |].
  exact IH.
Qed.

Lemma literalSplit_clean (s : string) :
  Forall (fun tok => strings.Contains tok sep = false) (literalSplit c s).
Proof.
  induction s as [|a s IH]; [repeat constructor |].
  cbn [literalSplit].
  destruct (Ascii.eqb a c) eqn:E.
  - constructor; [reflexivity | exact IH].
  - destruct (literalSplit c s) as [|tok toks]; [repeat constructor |].
    + rewrite Contains_byte, E. reflexivity.
    + inversion IH as [|? ? Htok Htoks]; subst.
      constructor; [| exact Htoks].
      rewrite Contains_byte, E. exact Htok.
Qed.

End OneByteSeparator.

(** ** [GetExperiments] *)

(** The accessor reads the raw string and nothing else: its result is the
    spec's, and the process is left as it was. *)
Lemma GetExperiments_run (w : World) :
  runState jobopts.GetExperiments w
  = (ResolveExperiments (load Experiments (flags w)), w).
Proof.
  unfold jobopts.GetExperiments. cbn -[strings.Split].
  change (experiments (flags w)) with (load Experiments (flags w)).
  destruct (load Experiments (flags w)) as [|a s] eqn:E; [reflexivity |].
  cbn -[strings.Split ResolveExperiments].
  change (experiments (flags w)) with (load Experiments (flags w)).
  rewrite E, Split_byte. reflexivity.
Qed.

Lemma ResolveExperiments_clean (raw : string) :
  Forall (fun tok => strings.Contains tok "," = false)
    (ResolveExperiments raw).
Proof.
  destruct raw as [|a s]; [constructor |].
  apply literalSplit_clean.
Qed.

(** C8.  [GetExperiments] returns what the spec's literal split on the
    comma gives, tokens in the order of the text, nothing trimmed and no
    empty token removed, and no experiments at all for the empty raw
    string: [""] gives the empty sequence, ["a,b,c"] gives [a], [b], [c],
    ["a,,b"] gives [a], the empty token, [b], and ["a,"] gives [a] and the
    empty token.  No token holds a comma, and blanks stay in theirs. *)
Theorem GetExperiments_literal (w : World) :
  fst (runState jobopts.GetExperiments w)
  = ResolveExperiments (load Experiments (flags w))
  /\ Forall (fun tok => strings.Contains tok "," = false)
       (fst (runState jobopts.GetExperiments w))
  /\ fst (runState jobopts.GetExperiments (setFlag Experiments "" w)) = []
  /\ fst (runState jobopts.GetExperiments (setFlag Experiments "a,b,c" w))
     = ["a"; "b"; "c"]
  /\ fst (runState jobopts.GetExperiments (setFlag Experiments "a,,b" w))
     = ["a"; ""; "b"]
  /\ fst (runState jobopts.GetExperiments (setFlag Experiments "a," w))
     = ["a"; ""]
  /\ fst (runState jobopts.GetExperiments (setFlag Experiments " a , b" w))
     = [" a "; " b"].
Proof.
  rewrite !GetExperiments_run, !load_setFlag. cbn [fst].
  split; [reflexivity |]. split; [apply ResolveExperiments_clean |].
  repeat split.
Qed.

(** C9.  [GetExperiments] keeps nothing and writes nothing: every call
    leaves the process as it found it, and its result is that of the raw
    string of the moment.  So with the field set to [v1], a call, the field
    set to [v2] and a second call, the first call gives the split of [v1]
    and the second the split of [v2]. *)
Theorem GetExperiments_no_cache (w : World) (v1 v2 : string) :
  let w1 := setFlag Experiments v1 w in
  let r1 := fst (runState jobopts.GetExperiments w1) in
  let w1' := snd (runState jobopts.GetExperiments w1) in
  let w2 := setFlag Experiments v2 w1' in
  let r2 := fst (runState jobopts.GetExperiments w2) in
  let w2' := snd (runState jobopts.GetExperiments w2) in
  snd (runState jobopts.GetExperiments w) = w
  /\ w1' = w1 /\ w2' = w2
  /\ r1 = (if String.eqb v1 "" then [] else strings.Split v1 ",")
  /\ r2 = (if String.eqb v2 "" then [] else strings.Split v2 ",").
Proof.
  cbn zeta. rewrite !GetExperiments_run. cbn [fst snd].
  rewrite !load_setFlag.
  repeat split.
  - destruct v1; [reflexivity |]. cbn -[strings.Split]. now rewrite Split_byte.
  - destruct v2; [reflexivity |]. cbn -[strings.Split]. now rewrite Split_byte.
Qed.

(** C10.  For a raw string [s] that is not empty, joining the tokens of
    [GetExperiments] with a comma gives [s] back; the tokens are at least
    one, and one more than the commas of [s]. *)
Theorem GetExperiments_join (w : World) :
  load Experiments (flags w) <> "" ->
  let s := load Experiments (flags w) in
  let r := fst (runState jobopts.GetExperiments w) in
  strings.Join r "," = s
  /\ r <> []
  /\ List.length r = (strings.CountString s "," + 1)%nat.
Proof.
  intros H. cbn zeta. rewrite GetExperiments_run. cbn [fst].
  destruct (load Experiments (flags w)) as [|a s]; [now elim H |].
  unfold ResolveExperiments.
  split; [apply Join_literalSplit |].
  split; [apply literalSplit_nonempty |].
  rewrite length_literalSplit. lia.
Qed.

Lemma GetExperiments_join_witness :
  strings.Join
    (fst (runState jobopts.GetExperiments (setFlag Experiments "a,,b" fresh)))
    "," = "a,,b"
  /\ List.length
       (fst (runState jobopts.GetExperiments
               (setFlag Experiments "a,,b" fresh))) = 3%nat.
Proof.
  destruct (GetExperiments_join (setFlag Experiments "a,,b" fresh))
    as (Hjoin & _ & Hlen).
  - simpl. discriminate.
  - split; [exact Hjoin | exact Hlen].
Defined.

(** * Further properties of the accessors *)

(** ** One call at a time *)

Lemma GetEndpoint_pure (w : World) : snd (runState jobopts.GetEndpoint w) = w.
Proof.
  unfold jobopts.GetEndpoint. cbn.
  destruct (String.eqb (endpoint (flags w)) ""); reflexivity.
Qed.

Lemma after_Step (c : Call) (w : World) : Step w c (after c w).
Proof.
  destruct c as [| | ctx |]; cbn [after].
  - rewrite GetEndpoint_pure. constructor; discriminate.
  - destruct (String.eqb_spec (load JobName (flags w)) "") as [E | N].
    + rewrite (GetJobName_unset w E). cbn zeta. cbn [snd].
      apply StepJobName; [exact E | discriminate].
    + rewrite (GetJobName_set w N). constructor; [easy | discriminate].
  - destruct (String.eqb_spec (load ContainerImage (flags w)) "") as [E | N].
    + rewrite (GetContainerImage_unset ctx w E). cbn zeta. cbn [snd].
      apply StepContainerImage; [exact E | apply devImage_nonempty].
    + rewrite (GetContainerImage_set ctx w N). constructor; [discriminate | easy].
  - rewrite GetExperiments_run. constructor; discriminate.
Qed.

(** A call that is not the first resolution of a field changes nothing. *)
Lemma after_resolved (c : Call) (w : World) :
  (isGetJobName c = true -> load JobName (flags w) <> "") ->
  (isGetContainerImage c = true -> load ContainerImage (flags w) <> "") ->
  after c w = w.
Proof.
  intros HJ HC. destruct c as [| | ctx |]; cbn [after].
  - apply GetEndpoint_pure.
  - now rewrite (GetJobName_set w (HJ eq_refl)).
  - now rewrite (GetContainerImage_set ctx w (HC eq_refl)).
  - now rewrite GetExperiments_run.
Qed.

Lemma Step_untouched (w w' : World) (c : Call) :
  Step w c w' ->
  load Endpoint (flags w') = load Endpoint (flags w)
  /\ load Experiments (flags w') = load Experiments (flags w)
  /\ load InternalJavaRunner (flags w') = load InternalJavaRunner (flags w)
  /\ async (flags w') = async (flags w)
  /\ environ w' = environ w
  /\ clock w' = clock w.
Proof. destruct 1; cbn; repeat split. Qed.

Lemma Step_ticks (w w' : World) (c : Call) :
  Step w c w' ->
  ticks w' = (ticks w + if unset JobName w && isGetJobName c then 1 else 0)%nat.
Proof.
  unfold unset. destruct 1 as [c HJ _ | name E _ | ctx img msg _ _].
  - destruct (isGetJobName c); [| rewrite andb_false_r; lia].
    rewrite (eqb_empty_false _ (HJ eq_refl)). cbn. lia.
  - rewrite E. cbn. lia.
  - cbn [isGetJobName ticks]. rewrite andb_false_r. lia.
Qed.

Lemma Step_logged (w w' : World) (c : Call) :
  Step w c w' ->
  List.length (diagnostics (trace w'))
  = (List.length (diagnostics (trace w))
     + if unset ContainerImage w && isGetContainerImage c then 1 else 0)%nat.
Proof.
  unfold unset, diagnostics.
  destruct 1 as [c _ HC | name _ _ | ctx img msg E _].
  - destruct (isGetContainerImage c); [| rewrite andb_false_r; lia].
    rewrite (eqb_empty_false _ (HC eq_refl)). cbn. lia.
  - cbn. rewrite andb_false_r. lia.
  - rewrite E. cbn. lia.
Qed.

Lemma Step_unset_JobName (w w' : World) (c : Call) :
  Step w c w' ->
  unset JobName w' = unset JobName w && negb (isGetJobName c).
Proof.
  unfold unset. destruct 1 as [c HJ _ | name E N | ctx img msg _ _].
  - destruct (isGetJobName c); [| now rewrite andb_true_r].
    now rewrite (eqb_empty_false _ (HJ eq_refl)).
  - cbn [flags]. rewrite load_store, (eqb_empty_false _ N), E. reflexivity.
  - cbn. now rewrite andb_true_r.
Qed.

Lemma Step_unset_ContainerImage (w w' : World) (c : Call) :
  Step w c w' ->
  unset ContainerImage w'
  = unset ContainerImage w && negb (isGetContainerImage c).
Proof.
  unfold unset. destruct 1 as [c _ HC | name _ _ | ctx img msg E N].
  - destruct (isGetContainerImage c); [| now rewrite andb_true_r].
    now rewrite (eqb_empty_false _ (HC eq_refl)).
  - cbn. now rewrite andb_true_r.
  - cbn [flags]. rewrite load_store, (eqb_empty_false _ N), E. reflexivity.
Qed.

Lemma Step_keeps (w w' : World) (c : Call) (p : StringFlag) :
  Step w c w' ->
  load p (flags w) <> "" -> load p (flags w') = load p (flags w).
Proof.
  destruct 1 as [c _ _ | name E _ | ctx img msg E _]; intros N;
    [reflexivity | |]; cbn [flags];
    destruct p; try reflexivity; now elim N.
Qed.

Lemma Step_trace (w w' : World) (c : Call) :
  Step w c w' ->
  exists new, trace w' = (new ++ trace w)%list /\ forallb ownEvent new = true.
Proof.
  destruct 1 as [c _ _ | name _ N | ctx img msg _ N].
  - exists []. split; reflexivity.
  - exists [Assigned JobName name]. split; [reflexivity |].
    cbn. now rewrite (eqb_empty_false _ N).
  - exists [Logged ctx SevInfo msg; Assigned ContainerImage img].
    split; [reflexivity |]. cbn. now rewrite (eqb_empty_false _ N).
Qed.

(** ** Any run of calls *)

(** X1.  Whatever accessors a client calls, in whatever order, the raw
    [Endpoint], [Experiments] and [InternalJavaRunner], the [Async] flag,
    the environment and the clock are as they were. *)
Theorem calls_leave_inputs (cs : list Call) (w : World) :
  load Endpoint (flags (afterAll cs w)) = load Endpoint (flags w)
  /\ load Experiments (flags (afterAll cs w)) = load Experiments (flags w)
  /\ load InternalJavaRunner (flags (afterAll cs w))
     = load InternalJavaRunner (flags w)
  /\ async (flags (afterAll cs w)) = async (flags w)
  /\ environ (afterAll cs w) = environ w
  /\ clock (afterAll cs w) = clock w.
Proof.
  revert w. induction cs as [|c cs IH]; intros w; cbn [afterAll].
  - repeat split.
  - destruct (IH (after c w)) as (H1 & H2 & H3 & H4 & H5 & H6).
    destruct (Step_untouched _ _ _ (after_Step c w))
      as (K1 & K2 & K3 & K4 & K5 & K6).
    repeat split; congruence.
Qed.

Lemma Step_trace_length (w w' : World) (c : Call) :
  Step w c w' ->
  List.length (trace w')
  = (List.length (trace w)
     + (if unset JobName w && isGetJobName c then 1 else 0)
     + (if unset ContainerImage w && isGetContainerImage c then 2 else 0))%nat.
Proof.
  unfold unset. destruct 1 as [c HJ HC | name E _ | ctx img msg E _].
  - destruct (isGetJobName c), (isGetContainerImage c);
      rewrite ?andb_false_r, ?andb_true_r;
      rewrite ?(eqb_empty_false _ (HJ eq_refl)),
        ?(eqb_empty_false _ (HC eq_refl)); lia.
  - rewrite E. cbn [isGetJobName isGetContainerImage trace List.length].
    rewrite andb_false_r. cbn. lia.
  - rewrite E. cbn [isGetJobName isGetContainerImage trace List.length].
    rewrite andb_false_r. cbn. lia.
Qed.

Lemma calls_counts (cs : list Call) (w : World) :
  ticks (afterAll cs w)
  = (ticks w
     + if unset JobName w && existsb isGetJobName cs then 1 else 0)%nat
  /\ List.length (diagnostics (trace (afterAll cs w)))
     = (List.length (diagnostics (trace w))
        + if unset ContainerImage w && existsb isGetContainerImage cs
          then 1 else 0)%nat
  /\ List.length (trace (afterAll cs w))
     = (List.length (trace w)
        + (if unset JobName w && existsb isGetJobName cs then 1 else 0)
        + (if unset ContainerImage w && existsb isGetContainerImage cs
           then 2 else 0))%nat.
Proof.
  revert w. induction cs as [|c cs IH]; intros w; cbn [afterAll existsb].
  - rewrite !andb_false_r. lia.
  - destruct (IH (after c w)) as (IHt & IHl & IHn).
    pose proof (after_Step c w) as St.
    rewrite IHt, IHl, IHn, (Step_ticks _ _ _ St), (Step_logged _ _ _ St),
      (Step_trace_length _ _ _ St),
      (Step_unset_JobName _ _ _ St), (Step_unset_ContainerImage _ _ _ St).
    destruct (unset JobName w), (isGetJobName c),
      (existsb isGetJobName cs), (unset ContainerImage w),
      (isGetContainerImage c), (existsb isGetContainerImage cs);
      cbn; lia.
Qed.

Lemma calls_trace (cs : list Call) (w : World) :
  exists new,
    trace (afterAll cs w) = (new ++ trace w)%list /\ forallb ownEvent new = true.
Proof.
  revert w. induction cs as [|c cs IH]; intros w; cbn [afterAll].
  - exists []. split; reflexivity.
  - destruct (IH (after c w)) as (new2 & T2 & O2).
    destruct (Step_trace _ _ _ (after_Step c w)) as (new1 & T1 & O1).
    exists (new2 ++ new1)%list. rewrite T2, T1, app_assoc, forallb_app, O1, O2.
    split; reflexivity.
Qed.

(** X2.  Over any run of calls the clock is read once if the job name was
    unset and [GetJobName] is among the calls, and not at all otherwise;
    the log gets one record if the container image was unset and
    [GetContainerImage] is among the calls, and none otherwise. *)
Theorem calls_resolve_once (cs : list Call) (w : World) :
  ticks (afterAll cs w)
  = (ticks w
     + if unset JobName w && existsb isGetJobName cs then 1 else 0)%nat
  /\ List.length (diagnostics (trace (afterAll cs w)))
     = (List.length (diagnostics (trace w))
        + if unset ContainerImage w && existsb isGetContainerImage cs
          then 1 else 0)%nat.
Proof.
  destruct (calls_counts cs w) as (Ht & Hl & _). split; assumption.
Qed.

Lemma calls_keep (p : StringFlag) (cs : list Call) (w : World) :
  load p (flags w) <> "" ->
  load p (flags (afterAll cs w)) = load p (flags w).
Proof.
  revert w. induction cs as [|c cs IH]; intros w N; cbn [afterAll];
    [reflexivity |].
  pose proof (Step_keeps _ _ _ p (after_Step c w) N) as K.
  rewrite IH; [exact K | now rewrite K].
Qed.

(** X3.  A string flag that is not empty keeps its value over any run of
    calls: an option the user gave, or a default once resolved, is never
    replaced. *)
Theorem calls_keep_resolved (p : StringFlag) (cs : list Call) (w : World) :
  load p (flags w) <> "" ->
  load p (flags (afterAll cs w)) = load p (flags w).
Proof. exact (calls_keep p cs w). Qed.

Lemma calls_keep_resolved_witness :
  load JobName
    (flags (afterAll [CallGetContainerImage Background; CallGetJobName;
                      CallGetEndpoint]
              (setFlag JobName "my-job" fresh)))
  = "my-job".
Proof.
  apply (calls_keep_resolved JobName
           [CallGetContainerImage Background; CallGetJobName; CallGetEndpoint]
           (setFlag JobName "my-job" fresh)).
  simpl. discriminate.
Defined.

(** X4.  After a first [GetJobName], a later [GetJobName] returns the same
    name whatever accessors were called in between; the same holds of
    [GetContainerImage], whatever the contexts. *)
Theorem calls_same_answer (cs : list Call) (ctx ctx' : Context) (w : World) :
  fst (runState jobopts.GetJobName (afterAll cs (after CallGetJobName w)))
  = fst (runState jobopts.GetJobName w)
  /\ fst (runState (jobopts.GetContainerImage ctx')
            (afterAll cs (after (CallGetContainerImage ctx) w)))
     = fst (runState (jobopts.GetContainerImage ctx) w).
Proof.
  split; cbn [after].
  - assert (Hres : load JobName
                     (flags (snd (runState jobopts.GetJobName w)))
                   = fst (runState jobopts.GetJobName w)
                   /\ fst (runState jobopts.GetJobName w) <> "").
    { destruct (String.eqb_spec (load JobName (flags w)) "") as [E | N].
      - rewrite (GetJobName_unset w E). cbn zeta. cbn [fst snd flags].
        rewrite load_store. split; [reflexivity | discriminate].
      - rewrite (GetJobName_set w N). split; [reflexivity | exact N]. }
    destruct Hres as [Hload Hne]. rewrite <- Hload in Hne.
    pose proof (calls_keep JobName cs _ Hne) as K.
    rewrite GetJobName_set; cbn [fst]; rewrite K; [exact Hload | exact Hne].
  - destruct (GetContainerImage_resolved ctx w) as [Hload Hne].
    rewrite <- Hload in Hne.
    pose proof (calls_keep ContainerImage cs _ Hne) as K.
    rewrite GetContainerImage_set; cbn [fst]; rewrite K;
      [exact Hload | exact Hne].
Qed.

(** X5.  Over any run of calls, what the accessors add to the trace is
    nothing but assignments of strings that are not empty to [JobName] and
    [ContainerImage], and log records at level info: no other flag is
    ever assigned, and no flag is ever emptied. *)
Theorem calls_own_events (cs : list Call) (w : World) :
  exists new,
    trace (afterAll cs w) = (new ++ trace w)%list
    /\ forallb ownEvent new = true
    /\ (List.length new <= 3)%nat.
Proof.
  destruct (calls_trace cs w) as (new & T & O). exists new.
  split; [exact T |]. split; [exact O |].
  destruct (calls_counts cs w) as (_ & _ & Hn).
  rewrite T, length_app in Hn.
  destruct (unset JobName w && existsb isGetJobName cs),
    (unset ContainerImage w && existsb isGetContainerImage cs); lia.
Qed.

(** ** The two defaults together *)


(** ** The generated job name *)

Lemma allBytes_app (p : ascii -> bool) (s t : string) :
  allBytes p (s ++ t) = allBytes p s && allBytes p t.
Proof.
  induction s as [|c s IH]; simpl; [reflexivity |].
  now rewrite IH, andb_assoc.
Qed.

Lemma digits_jobNameByte (d : Decimal.uint) :
  allBytes jobNameByte (NilEmpty.string_of_uint d) = true.
Proof. induction d; simpl; auto. Qed.

Lemma formatInt_jobNameByte (z : Z) :
  allBytes jobNameByte (fmt.formatInt z) = true.
Proof.
  unfold fmt.formatInt.
  destruct (Z.to_int z) as [d | d]; cbn [NilZero.string_of_int allBytes];
    destruct d; try reflexivity; apply digits_jobNameByte.
Qed.

(** The decimal text tells the integer. *)
Lemma formatInt_inj (a b : Z) : fmt.formatInt a = fmt.formatInt b -> a = b.
Proof.
  assert (Hparse : forall z,
             NilZero.int_of_string (fmt.formatInt z) = Some (Z.to_int z)).
  { intros z. unfold fmt.formatInt. apply NilZero.isi.
    - destruct z as [|p|p]; cbn; try discriminate.
      intros [= H]. now apply (Unsigned.to_uint_nonnil p).
    - destruct z as [|p|p]; cbn; try discriminate.
      intros [= H]. now apply (Unsigned.to_uint_nonnil p). }
  intros H. apply (f_equal NilZero.int_of_string) in H.
  rewrite !Hparse in H. injection H as H.
  apply (f_equal Z.of_int) in H. now rewrite !DecimalZ.of_to in H.
Qed.

Lemma append_inj_l (p s t : string) : p ++ s = p ++ t -> s = t.
Proof.
  induction p as [|c p IH]; simpl; [easy |]. intros [= H]. now apply IH.
Qed.

(** [UnixNano] of a reading that fits [int64] is the instant itself. *)
Lemma UnixNano_exact (t : time.Time) :
  representable t -> time.UnixNano t = instant t.
Proof.
  unfold representable, instant, time.UnixNano, time.wrap64. intros H.
  replace ((time.unixSec t * 1000000000 + 2 ^ 63) mod 2 ^ 64 - 2 ^ 63
           + time.nsec t + 2 ^ 63)%Z
    with ((time.unixSec t * 1000000000 + 2 ^ 63) mod 2 ^ 64
          + time.nsec t)%Z by lia.
  rewrite Z.add_mod_idemp_l by lia.
  rewrite Z.mod_small; lia.
Qed.

(** X7.  A generated job name is made of lower-case letters, digits and
    hyphens only, whatever the clock says. *)
Theorem GetJobName_bytes (w : World) :
  load JobName (flags w) = "" ->
  allBytes jobNameByte (fst (runState jobopts.GetJobName w)) = true.
Proof.
  intros E. rewrite (GetJobName_unset w E). cbn zeta. cbn [fst].
  rewrite allBytes_app, formatInt_jobNameByte. reflexivity.
Qed.

Lemma GetJobName_bytes_witness :
  allBytes jobNameByte (fst (runState jobopts.GetJobName fresh)) = true.
Proof. apply (GetJobName_bytes fresh). reflexivity. Defined.

(** X8.  Two generated job names are the same exactly when the two
    readings of the clock give the same [UnixNano]: the name tells the
    reading. *)
Theorem GetJobName_tells_reading (w1 w2 : World) :
  load JobName (flags w1) = "" ->
  load JobName (flags w2) = "" ->
  fst (runState jobopts.GetJobName w1) = fst (runState jobopts.GetJobName w2)
  <-> time.UnixNano (clock w1 (ticks w1))
      = time.UnixNano (clock w2 (ticks w2)).
Proof.
  intros E1 E2. rewrite (GetJobName_unset w1 E1), (GetJobName_unset w2 E2).
  cbn zeta. cbn [fst]. split.
  - intros H. now apply formatInt_inj, (append_inj_l "go-job-").
  - now intros ->.
Qed.

Lemma GetJobName_tells_reading_witness :
  fst (runState jobopts.GetJobName fresh)
  = fst (runState jobopts.GetJobName anonymous).
Proof.
  apply (GetJobName_tells_reading fresh anonymous); reflexivity.
Defined.

(** X9.  Two processes without a job name whose clocks read different
    instants, both within the range of [int64] nanoseconds, get different
    job names. *)
Theorem GetJobName_distinct (w1 w2 : World) :
  load JobName (flags w1) = "" ->
  load JobName (flags w2) = "" ->
  representable (clock w1 (ticks w1)) ->
  representable (clock w2 (ticks w2)) ->
  instant (clock w1 (ticks w1)) <> instant (clock w2 (ticks w2)) ->
  fst (runState jobopts.GetJobName w1) <> fst (runState jobopts.GetJobName w2).
Proof.
  intros E1 E2 R1 R2 D H. apply D.
  rewrite (GetJobName_unset w1 E1), (GetJobName_unset w2 E2) in H.
  cbn zeta in H. cbn [fst] in H.
  apply (append_inj_l "go-job-"), formatInt_inj in H.
  now rewrite !UnixNano_exact in H.
Qed.

Lemma GetJobName_distinct_witness :
  fst (runState jobopts.GetJobName fresh)
  <> fst (runState jobopts.GetJobName later).
Proof.
  apply (GetJobName_distinct fresh later).
  - reflexivity.
  - reflexivity.
  - unfold representable, instant. cbn. lia.
  - unfold representable, instant. cbn. lia.
  - unfold instant. cbn. lia.
Defined.

(** ** Building the experiments *)

Section Tokens.

Variable c : ascii.

Let sep : string := String c EmptyString.

Lemma literalSplit_token (s : string) :
  strings.Contains s sep = false -> literalSplit c s = [s].
Proof.
  unfold sep. induction s as [|a s IH]; [reflexivity |].
  rewrite Contains_byte. intros H. apply orb_false_elim in H as [Ha Hs].
  cbn [literalSplit]. now rewrite Ha, (IH Hs).
Qed.

Lemma literalSplit_app (s1 s2 : string) :
  literalSplit c (s1 ++ String c s2)
  = (literalSplit c s1 ++ literalSplit c s2)%list.
Proof.
  induction s1 as [|a s1 IH]; cbn [String.append literalSplit].
  - now rewrite Ascii.eqb_refl.
  - rewrite IH. destruct (Ascii.eqb a c); [reflexivity |].
    pose proof (literalSplit_nonempty c s1) as Hne.
    destruct (literalSplit c s1); [now elim Hne | reflexivity].
Qed.

Lemma literalSplit_Join (toks : list string) :
  toks <> [] ->
  Forall (fun tok => strings.Contains tok sep = false) toks ->
  literalSplit c (strings.Join toks sep) = toks.
Proof.
  induction toks as [|x toks IH]; [intros H; now elim H |].
  intros _ Hall. inversion Hall as [|? ? Hx Htoks]; subst.
  destruct toks as [|y toks].
  - now apply literalSplit_token.
  - rewrite Join_cons by discriminate.
    change (sep ++ strings.Join (y :: toks) sep)
      with (String c (strings.Join (y :: toks) sep)).
    rewrite literalSplit_app.
    rewrite (literalSplit_token x Hx), IH; [reflexivity | discriminate | exact Htoks].
Qed.

Lemma Join_empty (toks : list string) :
  toks <> [] -> strings.Join toks sep = "" -> toks = [""].
Proof.
  destruct toks as [|x [|y toks]]; cbn [strings.Join].
  - intros H; now elim H.
  - now intros _ ->.
  - intros _ H. destruct x; discriminate.
Qed.

End Tokens.

(** X10.  Putting two raw strings that are not empty together with a comma
    between them gives the experiments of the first followed by those of
    the second. *)
Theorem GetExperiments_append (s1 s2 : string) (w : World) :
  s1 <> "" -> s2 <> "" ->
  fst (runState jobopts.GetExperiments
         (setFlag Experiments (s1 ++ "," ++ s2) w))
  = (fst (runState jobopts.GetExperiments (setFlag Experiments s1 w))
     ++ fst (runState jobopts.GetExperiments (setFlag Experiments s2 w)))%list.
Proof.
  intros N1 N2. rewrite !GetExperiments_run, !load_setFlag. cbn [fst].
  destruct s1 as [|a1 s1]; [now elim N1 |].
  destruct s2 as [|a2 s2]; [now elim N2 |].
  cbn [String.append ResolveExperiments].
  change (String a1 (s1 ++ String "," (String a2 s2)))
    with (String a1 s1 ++ String "," (String a2 s2)).
  apply literalSplit_app.
Qed.

Lemma GetExperiments_append_witness :
  fst (runState jobopts.GetExperiments
         (setFlag Experiments ("beam_fn_api" ++ "," ++ "shuffle_mode=auto")
            fresh))
  = ["beam_fn_api"; "shuffle_mode=auto"].
Proof.
  rewrite (GetExperiments_append "beam_fn_api" "shuffle_mode=auto" fresh);
    [reflexivity | discriminate | discriminate].
Defined.

(** X11.  A list of tokens, at least one and none with a comma in it,
    joined with commas and put in the raw field, is what [GetExperiments]
    gives back, but for one list: the single empty token, whose text is
    the empty string, which stands for no experiments. *)
Theorem GetExperiments_of_Join (toks : list string) (w : World) :
  toks <> [] ->
  Forall (fun tok => strings.Contains tok "," = false) toks ->
  (fst (runState jobopts.GetExperiments
          (setFlag Experiments (strings.Join toks ",") w)) = toks
   <-> toks <> [""]).
Proof.
  intros Hne Hall. rewrite GetExperiments_run, load_setFlag. cbn [fst].
  destruct (strings.Join toks ",") as [|a s] eqn:J.
  - apply Join_empty in J; [| exact Hne]. subst toks. cbn. split.
    + discriminate.
    + intros H. now elim H.
  - cbn [ResolveExperiments]. rewrite <- J.
    rewrite (literalSplit_Join "," toks Hne Hall). split; [| reflexivity].
    intros _ ->. discriminate.
Qed.

Lemma GetExperiments_of_Join_witness :
  fst (runState jobopts.GetExperiments
         (setFlag Experiments
            (strings.Join ["beam_fn_api"; ""; "use_unified_worker"] ",")
            fresh))
  = ["beam_fn_api"; ""; "use_unified_worker"].
Proof.
  apply (GetExperiments_of_Join
           ["beam_fn_api"; ""; "use_unified_worker"] fresh).
  - discriminate.
  - repeat constructor.
  - discriminate.
Defined.

(** ** What every call establishes *)

Lemma GetJobName_resolved (w : World) :
  load JobName (flags (snd (runState jobopts.GetJobName w)))
  = fst (runState jobopts.GetJobName w)
  /\ fst (runState jobopts.GetJobName w) <> "".
Proof.
  destruct (String.eqb_spec (load JobName (flags w)) "") as [E | N].
  - rewrite (GetJobName_unset w E). cbn zeta. cbn [fst snd flags].
    rewrite load_store. split; [reflexivity | discriminate].
  - rewrite (GetJobName_set w N). split; [reflexivity | exact N].
Qed.

(** X12.  From any state at all, [GetJobName] and [GetContainerImage]
    return a string that is not empty, and the raw field holds that very
    string when the call is over. *)
Theorem defaults_established (ctx : Context) (w : World) :
  (fst (runState jobopts.GetJobName w) <> ""
   /\ load JobName (flags (snd (runState jobopts.GetJobName w)))
      = fst (runState jobopts.GetJobName w))
  /\ (fst (runState (jobopts.GetContainerImage ctx) w) <> ""
      /\ load ContainerImage
           (flags (snd (runState (jobopts.GetContainerImage ctx) w)))
         = fst (runState (jobopts.GetContainerImage ctx) w)).
Proof.
  destruct (GetJobName_resolved w) as [J1 J2].
  destruct (GetContainerImage_resolved ctx w) as [C1 C2].
  repeat split; assumption.
Qed.
